(** * azure-openai-chat-backend: the chat proxy handler of [main.go]

    A shallow embedding of [main.go]: the prompt wrapper
    [formatPromptWithReferenceRequest], the text splitter
    [parseResponseAndReferences] (the specification calls it
    splitResponseAndReferences) and the HTTP handler [chatHandler].

    Go strings are byte sequences, so a string is a [list byte].  The
    functions of Go's [strings] package that the program calls ([Index],
    [Split], [TrimSpace]) are embedded on bytes, after the standard
    library's sources. *)

From Stdlib Require Import List Arith Lia Bool ZArith QArith FunInd.
From Stdlib Require Import Strings.Byte.
From Stdlib Require Strings.String.
Import ListNotations String.StringSyntax.

Delimit Scope string_scope with string.
Close Scope Q_scope.
Open Scope nat_scope.
Open Scope list_scope.

Set Implicit Arguments.
Set Warnings "-register-all".

(** ** Go strings *)

Definition gostring : Type := list byte.

(** A Go string literal, from the text between its quotes. *)
Definition str (s : String.string) : gostring := String.list_byte_of_string s.
Arguments str s%_string.

(** ["\n"], the line feed. *)
Definition LF : gostring := [x0a].

Definition gostring_dec (s t : gostring) : {s = t} + {s <> t} :=
  list_eq_dec byte_eq_dec s t.

(** [s == ""] *)
Definition isEmpty (s : gostring) : bool :=
  match s with
  | [] => true
  | _ :: _ => false
  end.

Module strings.

(** [strings.HasPrefix(s, prefix)]:
    [len(s) >= len(prefix) && s[:len(prefix)] == prefix]. *)
Fixpoint HasPrefix (s prefix : gostring) {struct prefix} : bool :=
  match prefix with
  | [] => true
  | p :: prefix' =>
      match s with
      | [] => false
      | c :: s' => Byte.eqb c p && HasPrefix s' prefix'
      end
  end.

(** [strings.Index(s, substr)]: the index of the first instance of [substr]
    in [s]; Go's [-1] (no instance) is [None]. *)
Fixpoint Index (s substr : gostring) : option nat :=
  if HasPrefix s substr then Some 0
  else match s with
       | [] => None
       | _ :: s' => option_map S (Index s' substr)
       end.

(** The loop of [genSplit(s, sep, 0, n)]:
<<
      for i < n {
          m := Index(s, sep)
          if m < 0 { break }
          a[i] = s[:m]
          s = s[m+len(sep):]
          i++
      }
      a[i] = s
>>
    [fuel] is the number of rounds left. *)
Fixpoint genSplit (fuel : nat) (s sep : gostring) : list gostring :=
  match fuel with
  | O => [s]
  | S fuel' =>
      match Index s sep with
      | None => [s]
      | Some m => firstn m s :: genSplit fuel' (skipn (m + length sep) s) sep
      end
  end.

(** [strings.Split(s, sep)] for a non-empty [sep] (the program passes the
    literals ["References:"] and ["\n"]; the branch of [genSplit] for the empty
    separator is not embedded).  [genSplit] runs at most
    [min(Count(s, sep), len(s))] rounds: it clamps [n] to [len(s)+1] and loops
    while [i < n-1]; [genSplit_fuel] shows that [len(s)] rounds find every
    separator. *)
Definition Split (s sep : gostring) : list gostring :=
  genSplit (length s) s sep.

(** *** [strings.TrimSpace]

    [TrimSpace(s)] returns [s] without its leading and trailing white space,
    "as defined by Unicode": the code points of [unicode.IsSpace], which are
    U+0009..U+000D, U+0020, U+0085, U+00A0, U+1680, U+2000..U+200A, U+2028,
    U+2029, U+202F, U+205F and U+3000.  Go decodes [s] as UTF-8, front to back
    for the leading space and back to front for the trailing space, and a
    byte that starts no valid encoding decodes to U+FFFD, which is no space.
    So on bytes [TrimSpace] removes, as long as there is one, a leading and
    then a trailing UTF-8 encoding of one of these code points. *)

(** The table [asciiSpace]: ['\t'], ['\n'], ['\v'], ['\f'], ['\r'], [' ']. *)
Definition asciiSpace (c : byte) : bool :=
  match c with
  | x09 | x0a | x0b | x0c | x0d | x20 => true
  | _ => false
  end.

(** The two-byte encodings: U+0085 is [C2 85], U+00A0 is [C2 A0]. *)
Definition space2 (b0 b1 : byte) : bool :=
  match b0, b1 with
  | xc2, x85 | xc2, xa0 => true
  | _, _ => false
  end.

(** The three-byte encodings: U+1680 is [E1 9A 80]; U+2000..U+200A are
    [E2 80 80] .. [E2 80 8A]; U+2028, U+2029 and U+202F are [E2 80 A8],
    [E2 80 A9] and [E2 80 AF]; U+205F is [E2 81 9F]; U+3000 is [E3 80 80]. *)
Definition space3 (b0 b1 b2 : byte) : bool :=
  match b0, b1, b2 with
  | xe1, x9a, x80 => true
  | xe2, x80, (x80 | x81 | x82 | x83 | x84 | x85) => true
  | xe2, x80, (x86 | x87 | x88 | x89 | x8a) => true
  | xe2, x80, (xa8 | xa9 | xaf) => true
  | xe2, x81, x9f => true
  | xe3, x80, x80 => true
  | _, _, _ => false
  end.

Section Strip.
(** What counts as a space of one, two and three bytes at the head of the
    string that is scanned. *)
Variable sp1 : byte -> bool.
Variable sp2 : byte -> byte -> bool.
Variable sp3 : byte -> byte -> byte -> bool.

(** Drop spaces from the head of [s] until [s] starts with none. *)
Function strip (s : gostring) {struct s} : gostring :=
  match s with
  | [] => []
  | b0 :: s1 =>
      if sp1 b0 then strip s1
      else match s1 with
           | [] => s
           | b1 :: s2 =>
               if sp2 b0 b1 then strip s2
               else match s2 with
                    | [] => s
                    | b2 :: s3 => if sp3 b0 b1 b2 then strip s3 else s
                    end
           end
  end.
End Strip.

(** [TrimLeftFunc(s, unicode.IsSpace)] *)
Definition TrimLeftSpace (s : gostring) : gostring :=
  strip asciiSpace space2 space3 s.

(** The two- and three-byte encodings read from their last byte. *)
Definition space2r (b1 b0 : byte) : bool := space2 b0 b1.
Definition space3r (b2 b1 b0 : byte) : bool := space3 b0 b1 b2.

(** [TrimRightFunc(s, unicode.IsSpace)]: the same scan from the last byte
    backwards, so on the reversed string with each encoding read backwards. *)
Definition TrimRightSpace (s : gostring) : gostring :=
  rev (strip asciiSpace space2r space3r (rev s)).

(** [strings.TrimSpace(s)]: the leading space goes first, then the trailing
    space of what is left. *)
Definition TrimSpace (s : gostring) : gostring :=
  TrimRightSpace (TrimLeftSpace s).

End strings.

(** ** The data of [main.go] *)

Record ChatRequest : Type := mkChatRequest {
  Message : gostring
}.

Record ChatResponse : Type := mkChatResponse {
  Response : gostring;
  References : list gostring
}.

(** ** [formatPromptWithReferenceRequest] *)

(** The format string of [formatPromptWithReferenceRequest] after its [%s]. *)
Definition referenceRequestTemplate : gostring := str "

Please provide a detailed response with references. Include:
1. A clear explanation
2. Supporting evidence
3. Specific citations
4. A numbered list of references at the end

Format references using a standard academic format.".

(** [fmt.Sprintf] writes a string argument of [%s] as it is. *)
Definition formatPromptWithReferenceRequest (message : gostring) : gostring :=
  message ++ referenceRequestTemplate.

(** ** [parseResponseAndReferences] *)

Definition referencesMarker : gostring := str "References:".

(** The body of the [for ... range] loop: [references] after one [line]. *)
Definition appendReference (references : list gostring) (line : gostring)
  : list gostring :=
  let trimmed := strings.TrimSpace line in
  if isEmpty trimmed then references else references ++ [trimmed].

Definition parseResponseAndReferences (content : gostring)
  : gostring * list gostring :=
  let parts := strings.Split content referencesMarker in
  match parts with
  | part0 :: part1 :: _ =>
      let mainContent := strings.TrimSpace part0 in
      let referencesText := strings.TrimSpace part1 in
      let references :=
        fold_left appendReference (strings.Split referencesText LF) [] in
      (mainContent, references)
  | _ => (content, [])
  end.


(** ** [chatHandler] *)

(** The response types of [main.go]. [Reference] and [EnhancedChatResponse]
    are declared there and used nowhere. *)
Record Reference : Type := mkReference {
  Source : gostring;
  Title : gostring;
  Authors : gostring;
  Year : gostring;
  URL : gostring;
  AccessDate : gostring
}.

Record EnhancedChatResponse : Type := mkEnhancedChatResponse {
  EnhancedResponse : gostring;
  EnhancedReferences : list Reference;
  MainPoints : list gostring
}.

(** [ChatChoice]; [MessageContent] is the field [Message.Content]. *)
Record ChatChoice : Type := mkChatChoice {
  MessageContent : gostring;
  ChoiceIndex : Z;
  FinishReason : gostring
}.

Record AzureResponse : Type := mkAzureResponse {
  ID : gostring;
  Object : gostring;
  Created : Z;
  Model : gostring;
  Choices : list ChatChoice
}.

(** What [interface{}] holds in the request data: [nil], a string, an [int],
    a [float64] constant, a slice of maps and a [map[string]interface{}]
    (its entries in the order of the literal). *)
Inductive value : Type :=
| VNil
| VString (s : gostring)
| VInt (n : Z)
| VFloat (q : Q)
| VSlice (elems : list value)
| VMap (entries : list (gostring * value)).

(** [m[key]] of a map value. *)
Definition entry (key : gostring) (v : value) : option value :=
  match v with
  | VMap entries =>
      option_map snd
        (find (fun kv => if gostring_dec (fst kv) key then true else false)
              entries)
  | _ => None
  end.

(** The ["content"] of the message of [data] whose ["role"] is [role]. *)
Definition messageContent (role : gostring) (data : value) : option gostring :=
  match entry (str "messages") data with
  | Some (VSlice messages) =>
      match find (fun m => match entry (str "role") m with
                           | Some (VString r) =>
                               if gostring_dec r role then true else false
                           | _ => false
                           end) messages with
      | Some m => match entry (str "content") m with
                  | Some (VString c) => Some c
                  | _ => None
                  end
      | None => None
      end
  | _ => None
  end.

(** The system message of [chatHandler]. *)
Definition systemPrompt : gostring := str "You are a helpful assistant that provides detailed, accurate information with references.
            When providing information:
            1. Include relevant citations and sources
            2. Use a consistent citation format
            3. List all references at the end of your response
            4. Prefer academic sources, official documentation, and reliable websites
            5. Format your response as follows:
                - Main answer
                - Supporting details
                - References (numbered list)".

(** An outbound HTTP request: what [http.NewRequest] and [Header.Set] build. *)
Record Request : Type := mkRequest {
  Method : gostring;
  RequestURL : gostring;
  Header : list (gostring * gostring);
  Body : gostring
}.

(** [req.Header.Set(key, val)]: [val] replaces what [key] had.  Keys are kept
    as the program writes them. *)
Definition Header_Set (key val : gostring) (req : Request) : Request :=
  mkRequest (Method req) (RequestURL req)
    (filter (fun kv => if gostring_dec (fst kv) key then false else true)
            (Header req) ++ [(key, val)])
    (Body req).

(** What the upstream call comes to: [client.Do] fails, [ioutil.ReadAll] of
    the response body fails, or the body is read. *)
Inductive Upstream : Type :=
| DoFailed
| ReadFailed
| Replied (body : gostring).

(** The library functions [chatHandler] calls and whose code is not the
    program's; each is a function of its arguments. [None] is a non-nil
    [err]. *)
Record Library : Type := mkLibrary {
  (** [json.NewDecoder(r.Body).Decode(&chatRequest)] on the request body *)
  DecodeChatRequest : gostring -> option ChatRequest;
  (** [json.Marshal(data)] *)
  Marshal : value -> option gostring;
  (** [url.Parse] accepts the URL: when it does not, [http.NewRequest]
      returns an error *)
  urlParses : gostring -> bool;
  (** [json.Unmarshal(body, &azureResponse)] *)
  UnmarshalAzureResponse : gostring -> option AzureResponse
}.

(** What is outside the process: its environment (set from the [.env] file
    at startup) and the upstream API behind [client.Do]. *)
Record World : Type := mkWorld {
  Getenv : gostring -> gostring;
  Do : Request -> Upstream
}.

(** [http.NewRequest(method, url, body)] with a valid method. *)
Definition NewRequest (lib : Library) (method url body : gostring)
  : option Request :=
  if urlParses lib url then Some (mkRequest method url [] body) else None.

(** What the handler writes to its [http.ResponseWriter]: [http.Error(w, msg,
    code)], or the JSON encoding of a [ChatResponse] with
    [Content-Type: application/json] and the status 200 of a first write. *)
Inductive Reply : Type :=
| Error (msg : gostring) (code : Z)
| JSON (chatResponse : ChatResponse).

Definition StatusOK : Z := 200.
Definition StatusBadRequest : Z := 400.
Definition StatusInternalServerError : Z := 500.

Definition status (r : Reply) : Z :=
  match r with
  | Error _ code => code
  | JSON _ => StatusOK
  end.

(** The handler's steps: a step sees the outbound calls made so far
    and either goes on with a value or ends the request with a reply (the
    [return] after [http.Error], or the end of the function). *)
Definition Handler (A : Type) : Type :=
  list Request -> (Reply + A) * list Request.

Definition ret {A : Type} (a : A) : Handler A :=
  fun calls => (inr a, calls).

Definition bind {A B : Type} (c : Handler A) (k : A -> Handler B) : Handler B :=
  fun calls =>
    match c calls with
    | (inl reply, calls') => (inl reply, calls')
    | (inr a, calls') => k a calls'
    end.

Notation "x <- c ;; k" := (bind c (fun x => k))
  (at level 61, c at next level, right associativity).

(** Write [reply] and return. *)
Definition finish {A : Type} (reply : Reply) : Handler A :=
  fun calls => (inl reply, calls).

(** [if err != nil { http.Error(w, msg, code); return }] *)
Definition orError {A : Type} (result : option A) (msg : gostring) (code : Z)
  : Handler A :=
  match result with
  | Some a => ret a
  | None => finish (Error msg code)
  end.

(** [client.Do(req)] and [ioutil.ReadAll(resp.Body)]: one outbound call. *)
Definition client_Do (w : World) (req : Request) : Handler Upstream :=
  fun calls => (inr (Do w req), calls ++ [req]).

(** The reply and the outbound calls of a handler that starts a request. *)
Definition run (h : Handler Reply) : Reply * list Request :=
  match h [] with
  | (inl reply, calls) => (reply, calls)
  | (inr reply, calls) => (reply, calls)
  end.

(** The map [data] of [chatHandler]. *)
Definition requestData (w : World) (chatRequest : ChatRequest) : value :=
  VMap [
    (str "messages", VSlice [
      VMap [ (str "role", VString (str "system"));
             (str "content", VString systemPrompt) ];
      VMap [ (str "role", VString (str "user"));
             (str "content",
              VString
                (formatPromptWithReferenceRequest (Message chatRequest))) ]
    ]);
    (str "data_sources", VSlice [
      VMap [ (str "type", VString (str "azure_search"));
             (str "parameters", VMap [
               (str "endpoint",
                VString (Getenv w (str "AZURE_SEARCH_ENDPOINT")));
               (str "key", VString (Getenv w (str "AZURE_SEARCH_KEY")));
               (str "index_name",
                VString (Getenv w (str "AZURE_SEARCH_INDEX")));
               (str "query_type", VString (str "simple"));
               (str "semantic_configuration", VString (str "default"));
               (str "role_information", VString (str
                  "You are an AI assistant that helps people with questions using the provided documentation."));
               (str "filter", VNil);
               (str "strictness", VInt 3);
               (str "authentication", VMap [
                  (str "type", VString (str "api_key"));
                  (str "key", VString (Getenv w (str "AZURE_SEARCH_KEY"))) ])
             ]) ]
    ]);
    (str "max_tokens", VInt 2000);
    (str "temperature", VFloat (9 # 10));
    (str "top_p", VFloat (95 # 100));
    (str "frequency_penalty", VFloat (5 # 10));
    (str "presence_penalty", VFloat (5 # 10))
  ].

(** [chatHandler(w, r)], for the request body [body]: the reply written to
    [w] and the outbound calls made.  The two [log.Printf] lines (the raw
    upstream body, the unmarshal error) write to the process log only and are
    left out. *)
Definition chatHandler (lib : Library) (w : World) (body : gostring)
  : Reply * list Request :=
  run (
    chatRequest <- orError (DecodeChatRequest lib body)
                     (str "Invalid request payload") StatusBadRequest ;;
    let apiKey := Getenv w (str "AZURE_API_KEY") in
    let endpoint := Getenv w (str "AZURE_ENDPOINT") in
    let data := requestData w chatRequest in
    jsonData <- orError (Marshal lib data)
                  (str "Failed to marshal request data")
                  StatusInternalServerError ;;
    req <- orError (NewRequest lib (str "POST") endpoint jsonData)
             (str "Failed to create request") StatusInternalServerError ;;
    let req := Header_Set (str "Content-Type") (str "application/json") req in
    let req := Header_Set (str "api-key") apiKey req in
    resp <- client_Do w req ;;
    body <- match resp with
            | DoFailed =>
                finish (Error (str "Failed to send request to Azure OpenAI")
                              StatusInternalServerError)
            | ReadFailed =>
                finish (Error (str "Failed to read response from Azure OpenAI")
                              StatusInternalServerError)
            | Replied body => ret body
            end ;;
    azureResponse <- orError (UnmarshalAzureResponse lib body)
                       (str "Failed to unmarshal response data")
                       StatusInternalServerError ;;
    match Choices azureResponse with
    | [] =>
        finish (Error (str "No response choices returned")
                      StatusInternalServerError)
    | choice :: _ =>
        let responseContent := MessageContent choice in
        let (mainContent, references) :=
          parseResponseAndReferences responseContent in
        let chatResponse := mkChatResponse mainContent references in
        finish (JSON chatResponse)
    end).

(** The request that [chatHandler] sends for the marshalled data
    [jsonData]. *)
Definition upstreamRequest (w : World) (jsonData : gostring) : Request :=
  mkRequest (str "POST") (Getenv w (str "AZURE_ENDPOINT"))
    [ (str "Content-Type", str "application/json");
      (str "api-key", Getenv w (str "AZURE_API_KEY")) ]
    jsonData.

(** The environment variables that [chatHandler] reads. *)
Definition configKeys : list gostring :=
  [ str "AZURE_API_KEY"; str "AZURE_ENDPOINT"; str "AZURE_SEARCH_ENDPOINT";
    str "AZURE_SEARCH_KEY"; str "AZURE_SEARCH_INDEX" ].


(** ** Test doubles for the examples *)

(** [s] between double quotes, as in a JSON text. *)
Definition quoted (s : gostring) : gostring := [x22] ++ s ++ [x22].

(** The request bodies [{"message":"hi"}], [{}] and [not json]. *)
Definition body_hi : gostring :=
  str "{" ++ quoted (str "message") ++ str ":" ++ quoted (str "hi") ++ str "}".
Definition body_empty_object : gostring := str "{}".
Definition body_not_json : gostring := str "not json".

(** The upstream body [{"choices":[]}]. *)
Definition upstream_no_choices : gostring :=
  str "{" ++ quoted (str "choices") ++ str ":[]}".

(** A library that knows the texts above: it decodes them as
    [encoding/json] does (an absent field leaves [Message] empty, [not json]
    is an error), gives the user content for the marshalled data, and
    rejects a URL that starts with a colon, for which [url.Parse] reports a
    missing protocol scheme. *)
Definition testLibrary : Library :=
  {| DecodeChatRequest := fun body =>
       if gostring_dec body body_hi then Some (mkChatRequest (str "hi"))
       else if gostring_dec body body_empty_object then Some (mkChatRequest [])
       else None;
     Marshal := fun data =>
       Some (match messageContent (str "user") data with
             | Some content => content
             | None => []
             end);
     urlParses := fun url => negb (strings.HasPrefix url (str ":"));
     UnmarshalAzureResponse := fun body =>
       if gostring_dec body upstream_no_choices
       then Some (mkAzureResponse [] [] 0 [] [])
       else None |}.

(** An environment with [AZURE_ENDPOINT] set to [endpoint], [extra] set to
    ["1"] and nothing else set. *)
Definition testEnv (endpoint extra key : gostring) : gostring :=
  if gostring_dec key (str "AZURE_ENDPOINT") then endpoint
  else if gostring_dec key extra then str "1"
  else [].

(** A world whose upstream answers every call with [{"choices":[]}]. *)
Definition testWorld (endpoint extra : gostring) : World :=
  {| Getenv := testEnv endpoint extra;
     Do := fun _ => Replied upstream_no_choices |}.

(** ** Vocabulary of the statements *)

(** [sub] occurs in [s]. *)
Definition Occurs (sub s : gostring) : Prop :=
  exists a b, s = a ++ sub ++ b.

(** [s] is [before], then its first occurrence of [sub], then [after]. *)
Definition FirstOccurrence (sub s before after : gostring) : Prop :=
  s = before ++ sub ++ after /\
  forall a b, s = a ++ sub ++ b -> length before <= length a.

(** The lines of [s], by recursion on [s]: what [strings.Split s "\n"]
    returns ([Split_LF_lines]). *)
Fixpoint lines (s : gostring) : list gostring :=
  match s with
  | [] => [[]]
  | c :: s' =>
      if Byte.eqb c x0a then [] :: lines s'
      else match lines s' with
           | l :: ls => (c :: l) :: ls
           | [] => [[c]]
           end
  end.

(** Each line trimmed, the blank ones discarded, the order kept. *)
Definition trimmedNonBlank (L : list gostring) : list gostring :=
  filter (fun l => negb (isEmpty l)) (map strings.TrimSpace L).

(** A reference list as the specification words it: [text] "split into
    lines on newline boundaries, each line trimmed, blank lines discarded". *)
Definition referenceLines (text : gostring) : list gostring :=
  trimmedNonBlank (strings.Split text LF).

(** [after] up to its first occurrence of the marker, all of it when there
    is none: [parts[1]] of the split, when [after] follows the first marker. *)
Definition untilMarker (after : gostring) : gostring :=
  match strings.Index after referencesMarker with
  | Some j => firstn j after
  | None => after
  end.

(** The UTF-8 encoding of one white-space code point. *)
Inductive spaceRune : gostring -> Prop :=
| spaceRune1 b : strings.asciiSpace b = true -> spaceRune [b]
| spaceRune2 b0 b1 : strings.space2 b0 b1 = true -> spaceRune [b0; b1]
| spaceRune3 b0 b1 b2 :
    strings.space3 b0 b1 b2 = true -> spaceRune [b0; b1; b2].

(** A UTF-8 continuation byte, [10xxxxxx]. *)
Definition isCont (b : byte) : bool :=
  (128 <=? Byte.to_nat b) && (Byte.to_nat b <=? 191).

(** The seven [http.Error] calls of [chatHandler]: message and status. *)
Definition errorReplies : list (gostring * Z) :=
  [ (str "Invalid request payload", StatusBadRequest);
    (str "Failed to marshal request data", StatusInternalServerError);
    (str "Failed to create request", StatusInternalServerError);
    (str "Failed to send request to Azure OpenAI", StatusInternalServerError);
    (str "Failed to read response from Azure OpenAI",
     StatusInternalServerError);
    (str "Failed to unmarshal response data", StatusInternalServerError);
    (str "No response choices returned", StatusInternalServerError) ].

(** [lines] joined by ["\n"], as [strings.Join(lines, "\n")] does. *)
Fixpoint joinLines (ls : list gostring) : gostring :=
  match ls with
  | [] => []
  | [l] => l
  | l :: rest => l ++ LF ++ joinLines rest
  end.

(** An upstream text in the layout the system message asks for: the answer,
    then on lines of their own the marker and each reference. *)
Definition renderResponse (answer : gostring) (references : list gostring)
  : gostring :=
  answer ++ LF ++ referencesMarker ++ LF ++ joinLines references.

(** A reference that can stand on a line of such a text: not empty, with no
    space around it, no line feed and no marker in it. *)
Definition lineReference (r : gostring) : Prop :=
  r <> [] /\ strings.TrimSpace r = r /\ ~ In x0a r /\
  ~ Occurs referencesMarker r.

(** A world with [AZURE_ENDPOINT] set to [endpoint] whose upstream call
    always comes to [outcome]. *)
Definition replyWorld (endpoint : gostring) (outcome : Upstream) : World :=
  {| Getenv := testEnv endpoint [];
     Do := fun _ => outcome |}.

(** [testLibrary] with an unmarshaller that takes any upstream body for the
    content of a first choice and adds a second choice. *)
Definition echoLibrary : Library :=
  {| DecodeChatRequest := DecodeChatRequest testLibrary;
     Marshal := Marshal testLibrary;
     urlParses := urlParses testLibrary;
     UnmarshalAzureResponse := fun body =>
       Some (mkAzureResponse [] [] 0 []
               [ mkChatChoice body 0 (str "stop");
                 mkChatChoice (str "second choice") 1 (str "stop") ]) |}.

(** A world with the endpoint set and [extra] set to ["1"], whose upstream
    answers the request for the message ["hi"] (as [testLibrary] marshals
    it) with a text that has a reference, and any other request with
    [otherwise]. *)
Definition pickyWorld (extra : gostring) (otherwise : Upstream) : World :=
  {| Getenv := testEnv (str "https://example.test/chat") extra;
     Do := fun req =>
       if gostring_dec (Body req) (str "hi" ++ referenceRequestTemplate)
       then Replied (str "Answer References: r1")
       else otherwise |}.

(** * Properties of the string functions *)

Section StringFacts.
Import strings.

Lemma HasPrefix_app p s : HasPrefix (p ++ s) p = true.
Proof.
  induction p as [|c p IH]; simpl; [reflexivity|].
  rewrite (byte_dec_lb eq_refl), IH. reflexivity.
Qed.

Lemma HasPrefix_true p : forall s,
  HasPrefix s p = true -> s = p ++ skipn (length p) s.
Proof.
  induction p as [|c p IH]; intros [|d s] H; simpl in *;
    try reflexivity; try discriminate.
  apply andb_true_iff in H as [Hc Hp].
  apply byte_dec_bl in Hc. subst d. f_equal. auto.
Qed.

Lemma Index_unfold s sep :
  Index s sep =
  if HasPrefix s sep then Some 0
  else match s with
       | [] => None
       | _ :: s' => option_map S (Index s' sep)
       end.
Proof. destruct s; reflexivity. Qed.

(** [Index] finds an occurrence... *)
Lemma Index_Some sep : forall s i,
  Index s sep = Some i ->
  s = firstn i s ++ sep ++ skipn (i + length sep) s /\
  i + length sep <= length s.
Proof.
  induction s as [|c s IH]; intros i H; rewrite Index_unfold in H.
  - destruct (HasPrefix [] sep) eqn:E; [|discriminate].
    injection H as <-. destruct sep; [|discriminate]. simpl. auto.
  - destruct (HasPrefix (c :: s) sep) eqn:E.
    + injection H as <-. apply HasPrefix_true in E. simpl firstn.
      split; [exact E|]. apply (f_equal (@length byte)) in E.
      rewrite length_app in E. simpl in *. lia.
    + destruct (Index s sep) as [j|] eqn:Ej; [|discriminate].
      injection H as <-. destruct (IH j eq_refl) as [Hs Hl].
      simpl. split; [f_equal; exact Hs | lia].
Qed.

(** ... and it is the first one. *)
Lemma Index_first sep : forall s i a b,
  Index s sep = Some i -> s = a ++ sep ++ b -> i <= length a.
Proof.
  induction s as [|c s IH]; intros i a b H Hs; rewrite Index_unfold in H.
  - destruct (HasPrefix [] sep); [injection H as <-; lia | discriminate].
  - destruct (HasPrefix (c :: s) sep) eqn:E; [injection H as <-; lia|].
    destruct (Index s sep) as [j|] eqn:Ej; [|discriminate].
    injection H as <-. destruct a as [|d a].
    + simpl in Hs. rewrite Hs, HasPrefix_app in E. discriminate.
    + simpl in Hs. injection Hs as _ Hs. simpl.
      apply le_n_S. eapply IH; eauto.
Qed.

Lemma Index_None sep : forall s, Index s sep = None -> ~ Occurs sep s.
Proof.
  induction s as [|c s IH]; intros H (a & b & Hs); rewrite Index_unfold in H.
  - destruct (HasPrefix [] sep) eqn:E; [discriminate|].
    destruct a; [|discriminate]. simpl in Hs.
    rewrite Hs, HasPrefix_app in E. discriminate.
  - destruct (HasPrefix (c :: s) sep) eqn:E; [discriminate|].
    destruct (Index s sep) eqn:Ej; [discriminate|].
    destruct a as [|d a]; simpl in Hs.
    + rewrite Hs, HasPrefix_app in E. discriminate.
    + injection Hs as _ Hs. apply IH; [reflexivity|]. exists a, b. exact Hs.
Qed.

Lemma Index_None_iff sep s : Index s sep = None <-> ~ Occurs sep s.
Proof.
  split; [apply Index_None|].
  intros H. destruct (Index s sep) as [i|] eqn:E; [|reflexivity].
  exfalso. apply H. apply Index_Some in E as [E _]. eexists _, _. exact E.
Qed.

Lemma Index_FirstOccurrence sep s i :
  Index s sep = Some i ->
  FirstOccurrence sep s (firstn i s) (skipn (i + length sep) s).
Proof.
  intros H. destruct (Index_Some _ _ H) as [Hs Hl]. split; [exact Hs|].
  intros a b Hab. rewrite length_firstn.
  pose proof (Index_first _ _ _ H Hab). lia.
Qed.

Lemma FirstOccurrence_Index sep s before after :
  FirstOccurrence sep s before after ->
  Index s sep = Some (length before) /\
  firstn (length before) s = before /\
  skipn (length before + length sep) s = after.
Proof.
  intros [Hs Hmin].
  destruct (Index s sep) as [i|] eqn:E.
  - destruct (Index_Some _ _ E) as [Hi Hl].
    pose proof (Index_first _ _ _ E Hs) as H1.
    pose proof (Hmin _ _ Hi) as H2. rewrite length_firstn in H2.
    assert (i = length before) by lia. subst i.
    split; [reflexivity|]. rewrite Hs at 1 2.
    rewrite firstn_app, Nat.sub_diag, firstn_all. simpl. rewrite app_nil_r.
    split; [reflexivity|].
    rewrite app_assoc, skipn_app, length_app, Nat.sub_diag.
    rewrite skipn_all2 by (rewrite length_app; lia). reflexivity.
  - exfalso. apply Index_None in E. apply E. eexists _, _. exact Hs.
Qed.

(** [len(s)] rounds are enough for [genSplit]: more rounds change nothing. *)
Lemma genSplit_fuel c sep : forall f1 f2 s,
  length s <= f1 -> length s <= f2 ->
  genSplit f1 s (c :: sep) = genSplit f2 s (c :: sep).
Proof.
  induction f1 as [|f1 IH]; intros f2 s H1 H2.
  - destruct s; [|simpl in H1; lia]. destruct f2; reflexivity.
  - destruct f2 as [|f2].
    + destruct s; [|simpl in H2; lia]. reflexivity.
    + simpl. destruct (Index s (c :: sep)) as [m|] eqn:E; [|reflexivity].
      f_equal. apply Index_Some in E as [_ Hl]. simpl in Hl.
      apply IH; rewrite length_skipn; simpl; lia.
Qed.

Lemma Split_unfold c sep s :
  Split s (c :: sep) =
  match Index s (c :: sep) with
  | None => [s]
  | Some m => firstn m s :: Split (skipn (m + length (c :: sep)) s) (c :: sep)
  end.
Proof.
  unfold Split. destruct s as [|d s]; [reflexivity|].
  cbn [length genSplit]. destruct (Index (d :: s) (c :: sep)) as [m|] eqn:E;
    [|reflexivity].
  f_equal. apply Index_Some in E as [_ Hl]. cbn [length] in Hl.
  apply genSplit_fuel; rewrite length_skipn; cbn [length]; lia.
Qed.

Lemma lines_not_nil s : lines s <> [].
Proof.
  destruct s as [|c s]; simpl; [discriminate|].
  destruct (Byte.eqb c x0a); [discriminate|].
  destruct (lines s); discriminate.
Qed.

Lemma Split_LF_lines : forall s, Split s LF = lines s.
Proof.
  unfold LF. induction s as [|c s IH]; [reflexivity|].
  rewrite Split_unfold, Index_unfold. cbn [HasPrefix lines].
  destruct (Byte.eqb c x0a); cbn [andb].
  - cbn [firstn skipn length Nat.add]. rewrite IH. reflexivity.
  - rewrite <- IH, (Split_unfold x0a [] s).
    destruct (Index s [x0a]) as [m|]; reflexivity.
Qed.

End StringFacts.

(** ** The scan [strip], for any reading of what a space is *)

Section StripFacts.
Variable sp1 : byte -> bool.
Variable sp2 : byte -> byte -> bool.
Variable sp3 : byte -> byte -> byte -> bool.
Import strings.

Lemma strip_length s : length (strip sp1 sp2 sp3 s) <= length s.
Proof.
  functional induction (strip sp1 sp2 sp3 s); simpl in *; lia.
Qed.

(** The scan cannot return the whole of a string that it shortened. *)
Ltac strip_shorter H rest :=
  let L := fresh "L" in
  pose proof (strip_length rest) as L; rewrite H in L; simpl in L; lia.

Lemma strip_app_blank p x :
  strip sp1 sp2 sp3 p = [] ->
  strip sp1 sp2 sp3 (p ++ x) = strip sp1 sp2 sp3 x.
Proof.
  functional induction (strip sp1 sp2 sp3 p); simpl; intros H;
    try discriminate; auto.
  - rewrite e0. auto.
  - rewrite e0, e2. auto.
  - rewrite e0, e2, e4. auto.
Qed.

(** What the scan drops is all space, and the rest is the result. *)
Lemma strip_decompose s :
  exists p, s = p ++ strip sp1 sp2 sp3 s /\ strip sp1 sp2 sp3 p = [].
Proof.
  functional induction (strip sp1 sp2 sp3 s);
    try (exists []; split; reflexivity);
    destruct IHg as (p & Hs & Hp).
  - eexists (_ :: p).
    split; [simpl; f_equal; exact Hs | simpl; rewrite e0; exact Hp].
  - eexists (_ :: _ :: p).
    split; [simpl; do 2 f_equal; exact Hs | simpl; rewrite e0, e2; exact Hp].
  - eexists (_ :: _ :: _ :: p).
    split; [simpl; do 3 f_equal; exact Hs
           | simpl; rewrite e0, e2, e4; exact Hp].
Qed.

Lemma strip_idem s :
  strip sp1 sp2 sp3 (strip sp1 sp2 sp3 s) = strip sp1 sp2 sp3 s.
Proof.
  functional induction (strip sp1 sp2 sp3 s); auto; simpl.
  - rewrite e0. reflexivity.
  - rewrite e0, e2. reflexivity.
  - rewrite e0, e2, e4. reflexivity.
Qed.

(** A string that starts with no space keeps doing so when it is cut short. *)
Lemma strip_fixed_prefix t q :
  strip sp1 sp2 sp3 (t ++ q) = t ++ q -> strip sp1 sp2 sp3 t = t.
Proof.
  functional induction (strip sp1 sp2 sp3 t); auto; simpl; intros H;
    exfalso.
  - rewrite e0 in H. strip_shorter H (s1 ++ q).
  - rewrite e0, e2 in H. strip_shorter H (s2 ++ q).
  - rewrite e0, e2, e4 in H. strip_shorter H (s3 ++ q).
Qed.

End StripFacts.

(** ** The bytes of the white-space encodings *)

Section SpaceBytes.
Import strings.

Lemma asciiSpace_not_cont b : asciiSpace b = true -> isCont b = false.
Proof. destruct b; intros H; try discriminate H; reflexivity. Qed.

Lemma isCont_not_space b :
  isCont b = true -> asciiSpace b = false /\ Byte.eqb b x0a = false.
Proof. destruct b; intros H; try discriminate H; split; reflexivity. Qed.

Lemma space2_shape b0 b1 :
  space2 b0 b1 = true ->
  asciiSpace b0 = false /\ isCont b0 = false /\ Byte.eqb b0 x0a = false /\
  isCont b1 = true.
Proof.
  intros H. destruct b0; try discriminate H;
    destruct b1; try discriminate H; repeat split.
Qed.

Lemma space3_shape b0 b1 b2 :
  space3 b0 b1 b2 = true ->
  asciiSpace b0 = false /\ isCont b0 = false /\ Byte.eqb b0 x0a = false /\
  space2 b0 b1 = false /\ isCont b1 = true /\ isCont b2 = true.
Proof.
  intros H. destruct b0; try discriminate H;
    destruct b1; try discriminate H;
    destruct b2; try discriminate H; repeat split.
Qed.

Lemma space2_second_cont b0 b1 : isCont b1 = false -> space2 b0 b1 = false.
Proof.
  intros H. destruct (space2 b0 b1) eqn:E; [|reflexivity].
  apply space2_shape in E. destruct E as (_ & _ & _ & E). congruence.
Qed.

Lemma space2_first_start b0 b1 : isCont b0 = true -> space2 b0 b1 = false.
Proof.
  intros H. destruct (space2 b0 b1) eqn:E; [|reflexivity].
  apply space2_shape in E. destruct E as (_ & E & _). congruence.
Qed.

Lemma space3_second_cont b0 b1 b2 :
  isCont b1 = false -> space3 b0 b1 b2 = false.
Proof.
  intros H. destruct (space3 b0 b1 b2) eqn:E; [|reflexivity].
  apply space3_shape in E. destruct E as (_ & _ & _ & _ & E & _). congruence.
Qed.

Lemma space3_third_cont b0 b1 b2 :
  isCont b2 = false -> space3 b0 b1 b2 = false.
Proof.
  intros H. destruct (space3 b0 b1 b2) eqn:E; [|reflexivity].
  apply space3_shape in E. destruct E as (_ & _ & _ & _ & _ & E). congruence.
Qed.

(** An encoding starts with a byte that continues no encoding. *)
Lemma spaceRune_head tok :
  spaceRune tok -> exists t0 rest, tok = t0 :: rest /\ isCont t0 = false.
Proof.
  intros [b H|b0 b1 H|b0 b1 b2 H]; eexists _, _; (split; [reflexivity|]).
  - apply asciiSpace_not_cont, H.
  - apply space2_shape in H. tauto.
  - apply space3_shape in H. tauto.
Qed.

End SpaceBytes.

(** ** [TrimSpace] and one more white-space code point *)

Section TrimFacts.
Import strings.

Lemma TrimLeftSpace_rune_app tok x :
  spaceRune tok -> TrimLeftSpace (tok ++ x) = TrimLeftSpace x.
Proof.
  unfold TrimLeftSpace. intros [b H|b0 b1 H|b0 b1 b2 H]; simpl.
  - rewrite H. reflexivity.
  - pose proof (space2_shape _ _ H) as (-> & _). rewrite H. reflexivity.
  - pose proof (space3_shape _ _ _ H) as (-> & _ & _ & -> & _).
    rewrite H. reflexivity.
Qed.

Lemma TrimRightSpace_app_rune tok m :
  spaceRune tok -> TrimRightSpace (m ++ tok) = TrimRightSpace m.
Proof.
  unfold TrimRightSpace. intros [b H|b0 b1 H|b0 b1 b2 H];
    rewrite rev_app_distr; simpl; f_equal.
  - rewrite H. reflexivity.
  - pose proof (space2_shape _ _ H) as (_ & _ & _ & C).
    apply isCont_not_space in C as (-> & _).
    unfold space2r at 1. rewrite H. reflexivity.
  - pose proof (space3_shape _ _ _ H) as (_ & _ & _ & _ & C1 & C2).
    apply isCont_not_space in C2 as (-> & _).
    unfold space2r at 1. rewrite space2_first_start by exact C1.
    unfold space3r at 1. rewrite H. reflexivity.
Qed.

(** A string that starts with no space still starts with none when a
    white-space code point follows it. *)
Lemma TrimLeftSpace_app_rune tok l :
  spaceRune tok ->
  TrimLeftSpace (l ++ tok) =
  if isEmpty (TrimLeftSpace l) then [] else TrimLeftSpace l ++ tok.
Proof.
  intros Htok. unfold TrimLeftSpace.
  functional induction (strip asciiSpace space2 space3 l).
  - simpl. rewrite <- (app_nil_r tok).
    apply (TrimLeftSpace_rune_app [] Htok).
  - simpl. rewrite e0. exact IHg.
  - destruct (spaceRune_head Htok) as (t0 & rest & -> & Ht0).
    simpl. rewrite e0, space2_second_cont by exact Ht0.
    destruct rest; [reflexivity|].
    rewrite space3_second_cont by exact Ht0. reflexivity.
  - simpl. rewrite e0, e2. exact IHg.
  - destruct (spaceRune_head Htok) as (t0 & rest & -> & Ht0).
    simpl. rewrite e0, e2, space3_third_cont by exact Ht0. reflexivity.
  - simpl. rewrite e0, e2, e4. exact IHg.
  - simpl. rewrite e0, e2, e4. reflexivity.
Qed.

Lemma TrimSpace_rune_app tok x :
  spaceRune tok -> TrimSpace (tok ++ x) = TrimSpace x.
Proof.
  intros H. unfold TrimSpace. rewrite (TrimLeftSpace_rune_app x H).
  reflexivity.
Qed.

Lemma TrimSpace_app_rune tok l :
  spaceRune tok -> TrimSpace (l ++ tok) = TrimSpace l.
Proof.
  intros H. unfold TrimSpace. rewrite (TrimLeftSpace_app_rune l H).
  destruct (TrimLeftSpace l) as [|c m] eqn:E; [reflexivity|].
  cbn [isEmpty]. apply TrimRightSpace_app_rune, H.
Qed.

(** [TrimSpace] returns a substring of its argument ... *)
Lemma TrimSpace_substring s : exists a b, s = a ++ TrimSpace s ++ b.
Proof.
  unfold TrimSpace, TrimRightSpace, TrimLeftSpace.
  destruct (strip_decompose asciiSpace space2 space3 s) as (p & Hs & _).
  set (u := strip asciiSpace space2 space3 s) in *.
  destruct (strip_decompose asciiSpace space2r space3r (rev u)) as (q & Hu & _).
  exists p, (rev q). rewrite <- rev_app_distr, <- Hu, rev_involutive. exact Hs.
Qed.

(** ... that [TrimSpace] leaves as it is. *)
Lemma TrimSpace_idem s : TrimSpace (TrimSpace s) = TrimSpace s.
Proof.
  unfold TrimSpace.
  assert (L : TrimLeftSpace (TrimRightSpace (TrimLeftSpace s))
              = TrimRightSpace (TrimLeftSpace s)).
  { unfold TrimRightSpace, TrimLeftSpace.
    set (u := strip asciiSpace space2 space3 s).
    destruct (strip_decompose asciiSpace space2r space3r (rev u))
      as (q & Hu & _).
    apply strip_fixed_prefix with (q := rev q).
    rewrite <- rev_app_distr, <- Hu, rev_involutive.
    apply strip_idem. }
  rewrite L. unfold TrimRightSpace. rewrite rev_involutive.
  f_equal. apply strip_idem.
Qed.

End TrimFacts.

(** ** Lines *)

Section LineFacts.
Import strings.

Lemma lines_cons_other c s :
  Byte.eqb c x0a = false ->
  lines (c :: s) = (c :: hd [] (lines s)) :: tl (lines s).
Proof.
  intros H. simpl. rewrite H. destruct (lines s) eqn:E; [|reflexivity].
  destruct (lines_not_nil _ E).
Qed.

Lemma lines_app y z :
  lines (y ++ z) =
  removelast (lines y) ++
  (last (lines y) [] ++ hd [] (lines z)) :: tl (lines z).
Proof.
  induction y as [|c y IH].
  - simpl. destruct (lines z) eqn:E; [destruct (lines_not_nil _ E)|reflexivity].
  - cbn [app lines]. rewrite IH.
    destruct (lines y) as [|l0 ls] eqn:E; [destruct (lines_not_nil _ E)|].
    destruct (Byte.eqb c x0a); [reflexivity|].
    destruct ls; reflexivity.
Qed.

Lemma lines_rune tok :
  spaceRune tok -> tok = [x0a] \/ lines tok = [tok].
Proof.
  intros [b H|b0 b1 H|b0 b1 b2 H].
  - destruct (Byte.eqb b x0a) eqn:E.
    + left. apply byte_dec_bl in E. subst. reflexivity.
    + right. simpl. rewrite E. reflexivity.
  - right. apply space2_shape in H as (_ & _ & E0 & C1).
    apply isCont_not_space in C1 as (_ & E1).
    simpl. rewrite E0, E1. reflexivity.
  - right. apply space3_shape in H as (_ & _ & E0 & _ & C1 & C2).
    apply isCont_not_space in C1 as (_ & E1).
    apply isCont_not_space in C2 as (_ & E2).
    simpl. rewrite E0, E1, E2. reflexivity.
Qed.

Lemma referenceLines_lines t :
  referenceLines t = trimmedNonBlank (lines t).
Proof. unfold referenceLines. rewrite Split_LF_lines. reflexivity. Qed.

Lemma trimmedNonBlank_app L1 L2 :
  trimmedNonBlank (L1 ++ L2) = trimmedNonBlank L1 ++ trimmedNonBlank L2.
Proof. unfold trimmedNonBlank. rewrite map_app, filter_app. reflexivity. Qed.

(** A white-space code point in front of a text adds no reference ... *)
Lemma referenceLines_rune_app tok x :
  spaceRune tok -> referenceLines (tok ++ x) = referenceLines x.
Proof.
  intros H. rewrite !referenceLines_lines.
  destruct (lines_rune H) as [->|Hl].
  - reflexivity.
  - rewrite lines_app, Hl. cbn [removelast last app].
    destruct (lines x) as [|h t] eqn:E; [destruct (lines_not_nil _ E)|].
    unfold trimmedNonBlank. cbn [hd tl map]. rewrite (TrimSpace_rune_app h H).
    reflexivity.
Qed.

(** ... and neither does one behind it. *)
Lemma referenceLines_app_rune tok y :
  spaceRune tok -> referenceLines (y ++ tok) = referenceLines y.
Proof.
  intros H. rewrite !referenceLines_lines, lines_app.
  assert (Hy : lines y = removelast (lines y) ++ [last (lines y) []])
    by (apply app_removelast_last, lines_not_nil).
  rewrite Hy at 3.
  destruct (lines_rune H) as [->|Hl].
  - change (lines [x0a]) with [[] : gostring; []]. cbn [hd tl].
    rewrite app_nil_r.
    change (?a ++ ?b :: [[]]) with (a ++ [b] ++ [[]]).
    rewrite !trimmedNonBlank_app. unfold trimmedNonBlank at 3. cbn.
    rewrite app_nil_r. reflexivity.
  - rewrite Hl. cbn [hd tl]. rewrite !trimmedNonBlank_app. f_equal.
    unfold trimmedNonBlank. cbn [map]. rewrite (TrimSpace_app_rune _ H).
    reflexivity.
Qed.

Lemma referenceLines_TrimLeftSpace t :
  referenceLines (TrimLeftSpace t) = referenceLines t.
Proof.
  unfold TrimLeftSpace.
  functional induction (strip asciiSpace space2 space3 t); auto;
    rewrite IHg; symmetry.
  - apply (referenceLines_rune_app _ (spaceRune1 _ e0)).
  - apply (referenceLines_rune_app _ (spaceRune2 _ _ e2)).
  - apply (referenceLines_rune_app _ (spaceRune3 _ _ _ e4)).
Qed.

Lemma referenceLines_rev_strip r :
  referenceLines (rev (strip asciiSpace space2r space3r r))
  = referenceLines (rev r).
Proof.
  functional induction (strip asciiSpace space2r space3r r); auto;
    rewrite IHg; symmetry; cbn [rev]; rewrite <- ?app_assoc.
  - apply (referenceLines_app_rune _ (spaceRune1 _ e0)).
  - apply (referenceLines_app_rune _ (spaceRune2 _ _ e2)).
  - apply (referenceLines_app_rune _ (spaceRune3 _ _ _ e4)).
Qed.

(** Trimming a text before it is split into lines changes no reference. *)
Lemma referenceLines_TrimSpace t :
  referenceLines (TrimSpace t) = referenceLines t.
Proof.
  unfold TrimSpace, TrimRightSpace.
  rewrite referenceLines_rev_strip, rev_involutive.
  apply referenceLines_TrimLeftSpace.
Qed.

End LineFacts.

(** [TrimSpace] on Unicode space: U+00A0, U+3000 and U+200A go with the
    ASCII space around ["a b"]; a continuation byte on its own is no space
    and stays. *)
Example TrimSpace_unicode :
  strings.TrimSpace ([xc2; xa0; x20; xe3; x80; x80] ++ str "a b"
                     ++ [xe2; x80; x8a; x0a])
  = str "a b".
Proof. vm_compute. reflexivity. Qed.

Example TrimSpace_stray_byte :
  strings.TrimSpace (str " " ++ [xa0] ++ str "a" ++ [x85] ++ str " ")
  = [xa0] ++ str "a" ++ [x85].
Proof. vm_compute. reflexivity. Qed.

(** * [parseResponseAndReferences] *)

Section ParseFacts.
Import strings.

Lemma referencesMarker_cons :
  referencesMarker = x52 :: tl referencesMarker.
Proof. reflexivity. Qed.

(** The loop collects the trimmed lines that are not empty, in order. *)
Lemma fold_left_appendReference L : forall acc,
  fold_left appendReference L acc
  = acc ++ filter (fun l => negb (isEmpty l)) (map TrimSpace L).
Proof.
  induction L as [|l L IH]; intros acc; simpl.
  - rewrite app_nil_r. reflexivity.
  - rewrite IH. unfold appendReference.
    destruct (TrimSpace l) as [|c t]; simpl; [reflexivity|].
    rewrite <- app_assoc. reflexivity.
Qed.

Lemma Split_marker s :
  Split s referencesMarker =
  match Index s referencesMarker with
  | None => [s]
  | Some m =>
      firstn m s
      :: Split (skipn (m + length referencesMarker) s) referencesMarker
  end.
Proof.
  generalize referencesMarker_cons. generalize (tl referencesMarker).
  generalize referencesMarker. intros sep t ->. apply Split_unfold.
Qed.

(** [parts[1]] is the text between the first marker and the next one. *)
Lemma Split_marker_second after :
  exists rest, Split after referencesMarker = untilMarker after :: rest.
Proof.
  rewrite Split_marker. unfold untilMarker.
  destruct (Index after referencesMarker); eexists; reflexivity.
Qed.

Lemma parseResponseAndReferences_eq content :
  parseResponseAndReferences content =
  match Index content referencesMarker with
  | None => (content, [])
  | Some i =>
      (TrimSpace (firstn i content),
       referenceLines
         (untilMarker (skipn (i + length referencesMarker) content)))
  end.
Proof.
  unfold parseResponseAndReferences. rewrite Split_marker.
  destruct (Index content referencesMarker) as [i|]; [|reflexivity].
  destruct (Split_marker_second (skipn (i + length referencesMarker) content))
    as (rest & ->).
  cbv zeta. rewrite fold_left_appendReference. cbn [app].
  f_equal. apply referenceLines_TrimSpace.
Qed.

Lemma untilMarker_no_marker after :
  ~ Occurs referencesMarker after -> untilMarker after = after.
Proof.
  intros H. unfold untilMarker.
  apply Index_None_iff in H. rewrite H. reflexivity.
Qed.

Lemma untilMarker_next_marker after segment rest :
  FirstOccurrence referencesMarker after segment rest ->
  untilMarker after = segment.
Proof.
  intros H. apply FirstOccurrence_Index in H as (H & Hseg & _).
  unfold untilMarker. rewrite H. exact Hseg.
Qed.

Lemma Occurs_substring sub s a b :
  Occurs sub s -> Occurs sub (a ++ s ++ b).
Proof.
  intros (a' & b' & ->). exists (a ++ a'), (b' ++ b).
  rewrite <- !app_assoc. reflexivity.
Qed.

(** No marker lies before the first one. *)
Lemma no_marker_before_first sep s i :
  Index s sep = Some i -> sep <> [] -> ~ Occurs sep (firstn i s).
Proof.
  intros H Hne (a & b & Hab).
  destruct (Index_Some _ _ H) as [Hs Hl].
  assert (Hi : length (firstn i s) = i) by (rewrite length_firstn; lia).
  rewrite Hs, Hab, <- !app_assoc in H.
  pose proof (Index_first _ _ _ H eq_refl) as Hle.
  rewrite Hab, !length_app in Hi.
  destruct sep; [congruence|]. simpl in Hi. lia.
Qed.

End ParseFacts.

(** C1 (amended): when the text contains the marker, the answer is the text
    before the first occurrence of ["References:"], trimmed, and the
    reference list is made of the lines of the text after that occurrence up
    to the next occurrence of the marker, each line trimmed and the blank
    ones discarded, in order: the entire rest when the marker does not occur
    again, and only the segment before its next occurrence when it does. *)
Theorem parse_at_first_marker content before after :
  FirstOccurrence referencesMarker content before after ->
  fst (parseResponseAndReferences content) = strings.TrimSpace before /\
  (~ Occurs referencesMarker after ->
   snd (parseResponseAndReferences content) = referenceLines after) /\
  (forall segment rest,
     FirstOccurrence referencesMarker after segment rest ->
     snd (parseResponseAndReferences content) = referenceLines segment).
Proof.
  intros H. apply FirstOccurrence_Index in H as (Hi & Hb & Ha).
  rewrite parseResponseAndReferences_eq, Hi, Hb, Ha. cbn [fst snd].
  split; [reflexivity|]. split.
  - intros Hno. rewrite untilMarker_no_marker by exact Hno. reflexivity.
  - intros segment rest Hseg.
    rewrite (untilMarker_next_marker Hseg). reflexivity.
Qed.

Lemma parse_at_first_marker_witness :
  FirstOccurrence referencesMarker (str "A References: x References: y")
    (str "A ") (str " x References: y") /\
  FirstOccurrence referencesMarker (str " x References: y")
    (str " x ") (str " y") /\
  fst (parseResponseAndReferences (str "A References: x References: y"))
  = strings.TrimSpace (str "A ") /\
  snd (parseResponseAndReferences (str "A References: x References: y"))
  = referenceLines (str " x ").
Proof.
  assert (H1 : FirstOccurrence referencesMarker
                 (str "A References: x References: y")
                 (str "A ") (str " x References: y"))
    by exact (@Index_FirstOccurrence referencesMarker
                (str "A References: x References: y") 2 eq_refl).
  assert (H2 : FirstOccurrence referencesMarker (str " x References: y")
                 (str " x ") (str " y"))
    by exact (@Index_FirstOccurrence referencesMarker
                (str " x References: y") 3 eq_refl).
  destruct (parse_at_first_marker H1) as (Hfst & _ & Hsnd).
  split; [exact H1|]. split; [exact H2|]. split; [exact Hfst|].
  exact (Hsnd _ _ H2).
Defined.

(** C1 as stated fails: with a second marker in the text, the references are
    not the lines of the entire text after the first marker. *)
Lemma parse_second_marker_cuts_references :
  FirstOccurrence referencesMarker (str "A References: x References: y")
    (str "A ") (str " x References: y") /\
  referenceLines (str " x References: y") = [str "x References: y"] /\
  parseResponseAndReferences (str "A References: x References: y")
  = (str "A", [str "x"]) /\
  parseResponseAndReferences (str "A References: x References: y")
  <> (strings.TrimSpace (str "A "), referenceLines (str " x References: y")).
Proof.
  split.
  - exact (@Index_FirstOccurrence referencesMarker
             (str "A References: x References: y") 2 eq_refl).
  - split; [vm_compute; reflexivity|]. split; [vm_compute; reflexivity|].
    intros H. vm_compute in H. discriminate H.
Qed.

(** C2 (amended): a text without the marker is returned as it is, not
    trimmed, with an empty reference list. *)
Theorem parse_without_marker content :
  ~ Occurs referencesMarker content ->
  parseResponseAndReferences content = (content, []).
Proof.
  intros H. apply Index_None_iff in H.
  rewrite parseResponseAndReferences_eq, H. reflexivity.
Qed.

Lemma parse_without_marker_witness :
  ~ Occurs referencesMarker (str " hi ") /\
  parseResponseAndReferences (str " hi ") = (str " hi ", []).
Proof.
  assert (H : ~ Occurs referencesMarker (str " hi "))
    by (apply Index_None; vm_compute; reflexivity).
  split; [exact H | exact (parse_without_marker H)].
Defined.

(** C2 as stated fails: the text [" hi "] has no marker and comes back with
    its spaces. *)
Lemma parse_without_marker_not_trimmed :
  ~ Occurs referencesMarker (str " hi ") /\
  strings.TrimSpace (str " hi ") = str "hi" /\
  parseResponseAndReferences (str " hi ")
  <> (strings.TrimSpace (str " hi "), []).
Proof.
  split; [apply Index_None; vm_compute; reflexivity|].
  split; [vm_compute; reflexivity|].
  intros H. vm_compute in H. discriminate H.
Qed.

(** C3: the example with a blank line between two references. *)
Example parse_answer_body_example :
  parseResponseAndReferences
    (str "Answer body" ++ LF ++ str "References:" ++ LF ++
     str "1. A" ++ LF ++ LF ++ str "2. B" ++ LF)
  = (str "Answer body", [str "1. A"; str "2. B"]).
Proof. vm_compute. reflexivity. Qed.

(** C4: the example with spaces around the marker and the reference. *)
Example parse_source_one_example :
  parseResponseAndReferences
    (str "X References: " ++ LF ++ str "  " ++ LF ++ str " Source one  ")
  = (str "X", [str "Source one"]).
Proof. vm_compute. reflexivity. Qed.

(** C10: every reference returned is non-empty and is its own trim, and the
    answer returned contains no marker. *)
Theorem parse_result_invariant content :
  Forall (fun r => r <> [] /\ strings.TrimSpace r = r)
         (snd (parseResponseAndReferences content)) /\
  ~ Occurs referencesMarker (fst (parseResponseAndReferences content)).
Proof.
  rewrite parseResponseAndReferences_eq.
  destruct (strings.Index content referencesMarker) as [i|] eqn:E;
    cbn [fst snd].
  - split.
    + apply Forall_forall. intros r Hr. unfold referenceLines in Hr.
      apply filter_In in Hr as [Hin Hne].
      apply in_map_iff in Hin as (l & <- & _). split.
      * intros Hnil. rewrite Hnil in Hne. discriminate Hne.
      * apply TrimSpace_idem.
    + intros Hocc.
      destruct (TrimSpace_substring (firstn i content)) as (a & b & Hab).
      apply (no_marker_before_first _ E).
      * rewrite referencesMarker_cons. discriminate.
      * rewrite Hab. apply Occurs_substring, Hocc.
  - split; [constructor | apply Index_None, E].
Qed.

(** * [chatHandler] *)

Section HandlerFacts.
Variable lib : Library.
Variable w : World.

(** The handler, path by path. *)
Lemma chatHandler_eq body :
  chatHandler lib w body =
  match DecodeChatRequest lib body with
  | None => (Error (str "Invalid request payload") 400, [])
  | Some chatRequest =>
      match Marshal lib (requestData w chatRequest) with
      | None => (Error (str "Failed to marshal request data") 500, [])
      | Some jsonData =>
          if urlParses lib (Getenv w (str "AZURE_ENDPOINT")) then
            (match Do w (upstreamRequest w jsonData) with
             | DoFailed =>
                 Error (str "Failed to send request to Azure OpenAI") 500
             | ReadFailed =>
                 Error (str "Failed to read response from Azure OpenAI") 500
             | Replied upstreamBody =>
                 match UnmarshalAzureResponse lib upstreamBody with
                 | None => Error (str "Failed to unmarshal response data") 500
                 | Some azureResponse =>
                     match Choices azureResponse with
                     | [] => Error (str "No response choices returned") 500
                     | choice :: _ =>
                         JSON (mkChatResponse
                                 (fst (parseResponseAndReferences
                                         (MessageContent choice)))
                                 (snd (parseResponseAndReferences
                                         (MessageContent choice))))
                     end
                 end
             end, [upstreamRequest w jsonData])
          else (Error (str "Failed to create request") 500, [])
      end
  end.
Proof.
  unfold chatHandler.
  destruct (DecodeChatRequest lib body) as [chatRequest|];
    cbv beta iota zeta delta
      [run bind orError NewRequest ret finish client_Do app];
    [|reflexivity].
  destruct (Marshal lib (requestData w chatRequest)) as [jsonData|];
    [|reflexivity].
  destruct (urlParses lib (Getenv w (str "AZURE_ENDPOINT"))); [|reflexivity].
  change (Header_Set (str "api-key") (Getenv w (str "AZURE_API_KEY"))
            (Header_Set (str "Content-Type") (str "application/json")
               (mkRequest (str "POST") (Getenv w (str "AZURE_ENDPOINT")) []
                  jsonData)))
    with (upstreamRequest w jsonData).
  destruct (Do w (upstreamRequest w jsonData)) as [| |upstreamBody];
    try reflexivity.
  destruct (UnmarshalAzureResponse lib upstreamBody) as [azureResponse|];
    [|reflexivity].
  destruct (Choices azureResponse) as [|choice rest]; [reflexivity|].
  destruct (parseResponseAndReferences (MessageContent choice)). reflexivity.
Qed.

Lemma requestData_user_content chatRequest :
  messageContent (str "user") (requestData w chatRequest)
  = Some (formatPromptWithReferenceRequest (Message chatRequest)).
Proof. reflexivity. Qed.

(** The outbound calls of a request that decodes. *)
Lemma chatHandler_calls body chatRequest :
  DecodeChatRequest lib body = Some chatRequest ->
  snd (chatHandler lib w body) =
  match Marshal lib (requestData w chatRequest) with
  | Some jsonData =>
      if urlParses lib (Getenv w (str "AZURE_ENDPOINT"))
      then [upstreamRequest w jsonData] else []
  | None => []
  end.
Proof.
  intros H. rewrite chatHandler_eq, H.
  destruct (Marshal lib (requestData w chatRequest)); [|reflexivity].
  destruct (urlParses lib (Getenv w (str "AZURE_ENDPOINT"))); reflexivity.
Qed.

End HandlerFacts.

(** C5 (amended): for a request body that decodes to the message [m], the
    user message of the request data is [m] followed by the template; when
    the data marshals and the configured endpoint parses as a URL, the
    handler makes exactly one outbound call, whose body is the marshalled
    data; when not, it makes none. *)
Theorem chatHandler_outbound_call lib w body m :
  DecodeChatRequest lib body = Some (mkChatRequest m) ->
  messageContent (str "user") (requestData w (mkChatRequest m))
  = Some (m ++ referenceRequestTemplate) /\
  snd (chatHandler lib w body) =
  match Marshal lib (requestData w (mkChatRequest m)) with
  | Some jsonData =>
      if urlParses lib (Getenv w (str "AZURE_ENDPOINT"))
      then [upstreamRequest w jsonData] else []
  | None => []
  end.
Proof.
  intros H. split; [reflexivity|]. apply chatHandler_calls, H.
Qed.

Lemma chatHandler_outbound_call_witness :
  DecodeChatRequest testLibrary body_hi = Some (mkChatRequest (str "hi")) /\
  snd (chatHandler testLibrary (testWorld (str "https://example.test/chat") [])
         body_hi)
  = [upstreamRequest (testWorld (str "https://example.test/chat") [])
       (str "hi" ++ referenceRequestTemplate)].
Proof.
  split; [reflexivity|].
  exact (proj2 (@chatHandler_outbound_call testLibrary
                  (testWorld (str "https://example.test/chat") [])
                  body_hi (str "hi") eq_refl)).
Defined.

(** C5 as stated fails: with [AZURE_ENDPOINT=:] the body [{"message":"hi"}]
    decodes, [http.NewRequest] fails and no outbound call is made. *)
Lemma chatHandler_no_call_without_request :
  DecodeChatRequest testLibrary body_hi = Some (mkChatRequest (str "hi")) /\
  chatHandler testLibrary (testWorld (str ":") []) body_hi
  = (Error (str "Failed to create request") 500, []).
Proof. split; vm_compute; reflexivity. Qed.

(** C6: when the upstream body decodes to a response without choices, the
    reply is the error 500 "No response choices returned", and no
    [ChatResponse]. *)
Theorem chatHandler_no_choices
  lib w body chatRequest jsonData upstreamBody azureResponse :
  DecodeChatRequest lib body = Some chatRequest ->
  Marshal lib (requestData w chatRequest) = Some jsonData ->
  urlParses lib (Getenv w (str "AZURE_ENDPOINT")) = true ->
  Do w (upstreamRequest w jsonData) = Replied upstreamBody ->
  UnmarshalAzureResponse lib upstreamBody = Some azureResponse ->
  Choices azureResponse = [] ->
  fst (chatHandler lib w body)
  = Error (str "No response choices returned") 500 /\
  forall chatResponse, fst (chatHandler lib w body) <> JSON chatResponse.
Proof.
  intros Hd Hm Hu Hdo Hr Hc.
  rewrite chatHandler_eq, Hd, Hm, Hu, Hdo, Hr, Hc. cbn [fst].
  split; [reflexivity | discriminate].
Qed.

Lemma chatHandler_no_choices_witness :
  fst (chatHandler testLibrary (testWorld (str "https://example.test/chat") [])
         body_hi)
  = Error (str "No response choices returned") 500 /\
  forall chatResponse,
    fst (chatHandler testLibrary
           (testWorld (str "https://example.test/chat") []) body_hi)
    <> JSON chatResponse.
Proof.
  exact (@chatHandler_no_choices testLibrary
           (testWorld (str "https://example.test/chat") []) body_hi
           (mkChatRequest (str "hi")) (str "hi" ++ referenceRequestTemplate)
           upstream_no_choices (mkAzureResponse [] [] 0 [] [])
           eq_refl eq_refl eq_refl eq_refl eq_refl eq_refl).
Defined.

(** C7: a request body that does not decode gets the error 400 "Invalid
    request payload", and nothing else happens: no outbound call. *)
Theorem chatHandler_invalid_payload lib w body :
  DecodeChatRequest lib body = None ->
  chatHandler lib w body = (Error (str "Invalid request payload") 400, []).
Proof. intros H. rewrite chatHandler_eq, H. reflexivity. Qed.

Lemma chatHandler_invalid_payload_witness :
  DecodeChatRequest testLibrary body_not_json = None /\
  chatHandler testLibrary (testWorld (str "https://example.test/chat") [])
    body_not_json
  = (Error (str "Invalid request payload") 400, []).
Proof.
  split; [reflexivity|].
  exact (@chatHandler_invalid_payload testLibrary
           (testWorld (str "https://example.test/chat") []) body_not_json
           eq_refl).
Defined.

(** C8: a request body that decodes to an empty message is not answered
    with status 400, and the empty message goes through the prompt wrapper
    into the request: the user message of the request data is the wrapper
    applied to the empty message, which is the template alone; it is this
    data that is marshalled; when the request can be built, the one
    outbound call carries it and the reply is read off the upstream's
    answer to that call. *)
Theorem chatHandler_empty_message_accepted lib w body :
  DecodeChatRequest lib body = Some (mkChatRequest []) ->
  status (fst (chatHandler lib w body)) <> 400%Z /\
  messageContent (str "user") (requestData w (mkChatRequest []))
  = Some (formatPromptWithReferenceRequest []) /\
  formatPromptWithReferenceRequest [] = referenceRequestTemplate /\
  chatHandler lib w body =
  match Marshal lib (requestData w (mkChatRequest [])) with
  | None => (Error (str "Failed to marshal request data") 500, [])
  | Some jsonData =>
      if urlParses lib (Getenv w (str "AZURE_ENDPOINT")) then
        (match Do w (upstreamRequest w jsonData) with
         | DoFailed =>
             Error (str "Failed to send request to Azure OpenAI") 500
         | ReadFailed =>
             Error (str "Failed to read response from Azure OpenAI") 500
         | Replied upstreamBody =>
             match UnmarshalAzureResponse lib upstreamBody with
             | None => Error (str "Failed to unmarshal response data") 500
             | Some azureResponse =>
                 match Choices azureResponse with
                 | [] => Error (str "No response choices returned") 500
                 | choice :: _ =>
                     JSON (mkChatResponse
                             (fst (parseResponseAndReferences
                                     (MessageContent choice)))
                             (snd (parseResponseAndReferences
                                     (MessageContent choice))))
                 end
             end
         end, [upstreamRequest w jsonData])
      else (Error (str "Failed to create request") 500, [])
  end.
Proof.
  intros H. rewrite chatHandler_eq, H.
  split; [|split; [reflexivity | split; reflexivity]].
  destruct (Marshal lib (requestData w (mkChatRequest [])))
    as [jsonData|]; [|discriminate].
  destruct (urlParses lib (Getenv w (str "AZURE_ENDPOINT")));
    [|discriminate].
  cbn [fst].
  destruct (Do w (upstreamRequest w jsonData)) as [| |upstreamBody];
    try discriminate.
  destruct (UnmarshalAzureResponse lib upstreamBody) as [azureResponse|];
    [|discriminate].
  destruct (Choices azureResponse); discriminate.
Qed.

Lemma chatHandler_empty_message_accepted_witness :
  DecodeChatRequest testLibrary body_empty_object = Some (mkChatRequest []) /\
  status (fst (chatHandler testLibrary
                 (testWorld (str "https://example.test/chat") [])
                 body_empty_object)) <> 400%Z /\
  snd (chatHandler testLibrary
         (testWorld (str "https://example.test/chat") [])
         body_empty_object)
  = [upstreamRequest (testWorld (str "https://example.test/chat") [])
       referenceRequestTemplate].
Proof.
  pose proof (@chatHandler_empty_message_accepted testLibrary
                (testWorld (str "https://example.test/chat") [])
                body_empty_object eq_refl) as (Hstatus & _ & _ & Heq).
  split; [reflexivity|]. split; [exact Hstatus|].
  exact (f_equal snd Heq).
Defined.

(** C9: the result of the handler is fixed by the request body, the values
    of the five configuration variables and the upstream's answer to the
    request the handler sends: two invocations that agree on these give the
    same reply (status, body and reference list) and make the same outbound
    call, whatever else differs around them (other environment variables,
    what the upstream would answer to other requests). *)
Theorem chatHandler_deterministic lib w1 w2 body :
  (forall key, In key configKeys -> Getenv w1 key = Getenv w2 key) ->
  (forall chatRequest jsonData,
     DecodeChatRequest lib body = Some chatRequest ->
     Marshal lib (requestData w1 chatRequest) = Some jsonData ->
     Do w1 (upstreamRequest w1 jsonData)
     = Do w2 (upstreamRequest w2 jsonData)) ->
  chatHandler lib w1 body = chatHandler lib w2 body.
Proof.
  intros Henv Hdo.
  assert (Hdata : forall chatRequest,
            requestData w1 chatRequest = requestData w2 chatRequest).
  { intros chatRequest. unfold requestData.
    rewrite (Henv (str "AZURE_SEARCH_ENDPOINT")) by (simpl; tauto).
    rewrite (Henv (str "AZURE_SEARCH_KEY")) by (simpl; tauto).
    rewrite (Henv (str "AZURE_SEARCH_INDEX")) by (simpl; tauto).
    reflexivity. }
  assert (Hreq : forall jsonData,
            upstreamRequest w1 jsonData = upstreamRequest w2 jsonData).
  { intros jsonData. unfold upstreamRequest.
    rewrite (Henv (str "AZURE_ENDPOINT")) by (simpl; tauto).
    rewrite (Henv (str "AZURE_API_KEY")) by (simpl; tauto).
    reflexivity. }
  rewrite !chatHandler_eq.
  destruct (DecodeChatRequest lib body) as [chatRequest|] eqn:Hd;
    [|reflexivity].
  pose proof (Hdo chatRequest) as Hup. rewrite <- Hdata.
  destruct (Marshal lib (requestData w1 chatRequest)) as [jsonData|];
    [|reflexivity].
  rewrite <- (Henv (str "AZURE_ENDPOINT")) by (simpl; tauto).
  rewrite <- (Hup jsonData eq_refl eq_refl), <- Hreq. reflexivity.
Qed.

Lemma chatHandler_deterministic_witness :
  chatHandler echoLibrary (pickyWorld (str "HOME") DoFailed) body_hi
  = chatHandler echoLibrary (pickyWorld (str "PATH") ReadFailed) body_hi /\
  fst (chatHandler echoLibrary (pickyWorld (str "HOME") DoFailed) body_hi)
  = JSON (mkChatResponse (str "Answer") [str "r1"]) /\
  Getenv (pickyWorld (str "HOME") DoFailed) (str "HOME")
  <> Getenv (pickyWorld (str "PATH") ReadFailed) (str "HOME") /\
  Do (pickyWorld (str "HOME") DoFailed) (mkRequest [] [] [] [])
  <> Do (pickyWorld (str "PATH") ReadFailed) (mkRequest [] [] [] []).
Proof.
  split; [|split; [vm_compute; reflexivity | split; discriminate]].
  apply chatHandler_deterministic.
  - intros key Hkey. simpl in Hkey.
    repeat (destruct Hkey as [<-|Hkey]; [reflexivity|]).
    destruct Hkey.
  - intros chatRequest jsonData Hd Hm.
    vm_compute in Hd. injection Hd as <-.
    vm_compute in Hm. injection Hm as <-.
    vm_compute. reflexivity.
Defined.

(** * Further properties of [parseResponseAndReferences] *)

Section OccurrenceFacts.
Import strings.

Lemma Occurs_trans a b c : Occurs a b -> Occurs b c -> Occurs a c.
Proof. intros H (x & y & ->). apply Occurs_substring, H. Qed.

Lemma Occurs_refl s : Occurs s s.
Proof. exists [], []. rewrite app_nil_r. reflexivity. Qed.

Lemma Occurs_firstn n s : Occurs (firstn n s) s.
Proof.
  exists [], (skipn n s). simpl. symmetry. apply firstn_skipn.
Qed.

Lemma Occurs_skipn n s : Occurs (skipn n s) s.
Proof.
  exists (firstn n s), []. rewrite app_nil_r. symmetry. apply firstn_skipn.
Qed.

Lemma Occurs_In c sub s : Occurs sub s -> In c sub -> In c s.
Proof.
  intros (a & b & ->) H. apply in_or_app. right. apply in_or_app. left.
  exact H.
Qed.

Lemma Occurs_TrimSpace s : Occurs (TrimSpace s) s.
Proof. exact (TrimSpace_substring s). Qed.

(** An occurrence of [sep] in two texts joined by a byte that [sep] does not
    have lies in one of the two. *)
Lemma Occurs_across_byte sep c x y :
  ~ In c sep -> Occurs sep (x ++ c :: y) -> Occurs sep x \/ Occurs sep y.
Proof.
  intros Hc (a & b & H).
  apply app_eq_app in H as (l & [[Hx Hl]|[Ha Hl]]).
  - apply app_eq_app in Hl as (l2 & [[Hs H2]|[H1 Hb]]).
    + destruct l2 as [|d l2].
      * left. rewrite app_nil_r in Hs. subst. exists a, [].
        rewrite app_nil_r. reflexivity.
      * simpl in H2. injection H2 as -> _. exfalso. apply Hc.
        rewrite Hs. apply in_or_app. right. left. reflexivity.
    + left. subst. exists a, l2. reflexivity.
  - destruct l as [|d l].
    + simpl in Hl. destruct sep as [|d sep].
      * left. exists x, []. rewrite app_nil_r. reflexivity.
      * simpl in Hl. injection Hl as <- _. exfalso. apply Hc. left.
        reflexivity.
    + simpl in Hl. injection Hl as _ ->. right. exists l, b. reflexivity.
Qed.

(** A separator whose first byte does not come again overlaps no other
    occurrence of itself: put after a text that has none, it is the first. *)
Lemma FirstOccurrence_intro c sep before after :
  ~ In c sep -> ~ Occurs (c :: sep) before ->
  FirstOccurrence (c :: sep) (before ++ (c :: sep) ++ after) before after.
Proof.
  intros Hc Hno. split; [reflexivity|]. intros a b H.
  apply app_eq_app in H as (l & [[Hb Hl]|[Ha Hl]]).
  - destruct l as [|d l]; [rewrite app_nil_r in Hb; subst; lia|].
    exfalso. apply app_eq_app in Hl as (l2 & [[Hs H2]|[H1 H2]]).
    + destruct l2 as [|e l2].
      * rewrite app_nil_r in Hs. apply Hno. exists a, []. rewrite app_nil_r.
        rewrite Hs. exact Hb.
      * simpl in Hs. injection Hs as _ Hs. simpl in H2. injection H2 as -> _.
        apply Hc. rewrite Hs. apply in_or_app. right. left. reflexivity.
    + apply Hno. exists a, l2. rewrite Hb, H1. reflexivity.
  - rewrite Ha, length_app. lia.
Qed.

Lemma referencesMarker_head_once : ~ In x52 (tl referencesMarker).
Proof.
  intros H. simpl in H.
  repeat (destruct H as [H|H]; [discriminate H|]). exact H.
Qed.

Lemma referencesMarker_no_LF : ~ In x0a referencesMarker.
Proof.
  intros H. simpl in H.
  repeat (destruct H as [H|H]; [discriminate H|]). exact H.
Qed.

Lemma FirstOccurrence_marker before after :
  ~ Occurs referencesMarker before ->
  FirstOccurrence referencesMarker
    (before ++ referencesMarker ++ after) before after.
Proof.
  rewrite referencesMarker_cons.
  apply FirstOccurrence_intro, referencesMarker_head_once.
Qed.

End OccurrenceFacts.

Section MoreLineFacts.
Import strings.

Lemma lines_head_prefix t : exists b, t = hd [] (lines t) ++ b.
Proof.
  induction t as [|c t (b & IH)].
  - exists []. reflexivity.
  - destruct (Byte.eqb c x0a) eqn:E.
    + simpl. rewrite E. exists (c :: t). reflexivity.
    + rewrite lines_cons_other by exact E. exists b. simpl. f_equal. exact IH.
Qed.

(** Every line of a text is a piece of it ... *)
Lemma lines_In_Occurs : forall t l, In l (lines t) -> Occurs l t.
Proof.
  induction t as [|c t IH]; intros l H.
  - destruct H as [<-|[]]. apply Occurs_refl.
  - destruct (Byte.eqb c x0a) eqn:E.
    + simpl in H. rewrite E in H. destruct H as [<-|H].
      * exists [], (c :: t). reflexivity.
      * destruct (IH _ H) as (a & b & ->). exists (c :: a), b. reflexivity.
    + rewrite lines_cons_other in H by exact E. destruct H as [<-|H].
      * destruct (lines_head_prefix t) as (b & Hb). exists [], b. simpl.
        f_equal. exact Hb.
      * assert (Hin : In l (lines t)).
        { destruct (lines t); [destruct H | right; exact H]. }
        destruct (IH _ Hin) as (a & b & ->). exists (c :: a), b. reflexivity.
Qed.

(** ... and has no line feed. *)
Lemma lines_no_LF : forall t l, In l (lines t) -> ~ In x0a l.
Proof.
  induction t as [|c t IH]; intros l H.
  - destruct H as [<-|[]]. intros [].
  - destruct (Byte.eqb c x0a) eqn:E.
    + simpl in H. rewrite E in H. destruct H as [<-|H]; [intros []|].
      apply IH, H.
    + rewrite lines_cons_other in H by exact E.
      destruct (lines t) as [|l0 ls] eqn:El; [destruct (lines_not_nil _ El)|].
      destruct H as [<-|H].
      * simpl. intros [Hc|Hl].
        -- subst c. discriminate E.
        -- revert Hl. apply IH. left. reflexivity.
      * apply IH. right. exact H.
Qed.

Lemma lines_single l : ~ In x0a l -> lines l = [l].
Proof.
  induction l as [|c l IH]; intros H; [reflexivity|].
  assert (E : Byte.eqb c x0a = false).
  { destruct (Byte.eqb c x0a) eqn:E; [|reflexivity].
    apply byte_dec_bl in E. exfalso. apply H. left. exact E. }
  rewrite lines_cons_other by exact E.
  rewrite IH by (intros Hl; apply H; right; exact Hl). reflexivity.
Qed.

(** The lines of joined lines are the lines that were joined. *)
Lemma lines_joinLines : forall ls,
  ls <> [] -> Forall (fun l => ~ In x0a l) ls -> lines (joinLines ls) = ls.
Proof.
  induction ls as [|l ls IH]; intros Hne H; [congruence|].
  inversion H as [|? ? Hl Hls]; subst.
  destruct ls as [|l' ls]; [apply lines_single, Hl|].
  change (joinLines (l :: l' :: ls)) with (l ++ LF ++ joinLines (l' :: ls)).
  rewrite lines_app, (lines_single l) by exact Hl.
  cbn [removelast last app].
  change (lines (LF ++ joinLines (l' :: ls)))
    with ([] :: lines (joinLines (l' :: ls))).
  cbn [hd tl]. rewrite app_nil_r, IH by (congruence || exact Hls).
  reflexivity.
Qed.

Lemma joinLines_no_marker : forall ls,
  Forall (fun l => ~ Occurs referencesMarker l) ls ->
  ~ Occurs referencesMarker (joinLines ls).
Proof.
  induction ls as [|l ls IH]; intros H.
  - intros (a & b & Hab). destruct a; discriminate Hab.
  - inversion H as [|? ? Hl Hls]; subst.
    destruct ls as [|l' ls]; [exact Hl|].
    change (joinLines (l :: l' :: ls)) with (l ++ x0a :: joinLines (l' :: ls)).
    intros Hocc.
    apply Occurs_across_byte in Hocc; [|exact referencesMarker_no_LF].
    destruct Hocc as [Hocc|Hocc].
    + exact (Hl Hocc).
    + exact (IH Hls Hocc).
Qed.

Lemma trimmedNonBlank_fixed : forall ls,
  Forall (fun l => l <> [] /\ TrimSpace l = l) ls -> trimmedNonBlank ls = ls.
Proof.
  induction ls as [|l ls IH]; intros H; [reflexivity|].
  inversion H as [|? ? [Hne Ht] Hls]; subst.
  unfold trimmedNonBlank in *. cbn [map filter]. rewrite Ht.
  destruct l; [congruence|]. cbn [isEmpty negb]. f_equal. apply IH, Hls.
Qed.

End MoreLineFacts.

Section MoreParseFacts.
Import strings.

Lemma untilMarker_Occurs after : Occurs (untilMarker after) after.
Proof.
  unfold untilMarker. destruct (Index after referencesMarker).
  - apply Occurs_firstn.
  - apply Occurs_refl.
Qed.

Lemma untilMarker_has_no_marker after :
  ~ Occurs referencesMarker (untilMarker after).
Proof.
  unfold untilMarker.
  destruct (Index after referencesMarker) as [j|] eqn:E.
  - apply (no_marker_before_first _ E). rewrite referencesMarker_cons.
    discriminate.
  - apply Index_None, E.
Qed.

(** A reference is a trimmed line of the text it is read from. *)
Lemma referenceLines_In text r :
  In r (referenceLines text) ->
  r <> [] /\ exists l, In l (lines text) /\ r = TrimSpace l.
Proof.
  rewrite referenceLines_lines. unfold trimmedNonBlank. intros H.
  apply filter_In in H as [Hin Hne].
  apply in_map_iff in Hin as (l & <- & Hl). split.
  - intros Hnil. rewrite Hnil in Hne. discriminate Hne.
  - exists l. split; [exact Hl | reflexivity].
Qed.

Lemma parse_answer_no_marker content :
  ~ Occurs referencesMarker (fst (parseResponseAndReferences content)).
Proof.
  rewrite parseResponseAndReferences_eq.
  destruct (Index content referencesMarker) as [i|] eqn:E; cbn [fst].
  - intros Hocc. apply (no_marker_before_first _ E).
    + rewrite referencesMarker_cons. discriminate.
    + exact (Occurs_trans Hocc (Occurs_TrimSpace _)).
  - apply Index_None, E.
Qed.

Lemma parse_references_lines content :
  Forall lineReference (snd (parseResponseAndReferences content)).
Proof.
  rewrite parseResponseAndReferences_eq.
  destruct (Index content referencesMarker) as [i|]; cbn [snd];
    [|constructor].
  apply Forall_forall. intros r Hr.
  apply referenceLines_In in Hr as (Hne & l & Hl & ->).
  split; [exact Hne|]. split; [apply TrimSpace_idem|]. split.
  - intros Hc. apply (lines_no_LF _ _ Hl).
    eapply Occurs_In; [apply Occurs_TrimSpace | exact Hc].
  - intros Hocc. apply (untilMarker_has_no_marker
                          (skipn (i + length referencesMarker) content)).
    exact (Occurs_trans Hocc
             (Occurs_trans (Occurs_TrimSpace l) (lines_In_Occurs _ _ Hl))).
Qed.

End MoreParseFacts.

(** X1: the answer and every reference returned are pieces of the input
    text: nothing is returned that the text does not contain. *)
Theorem parse_returns_substrings content :
  Occurs (fst (parseResponseAndReferences content)) content /\
  Forall (fun r => Occurs r content)
         (snd (parseResponseAndReferences content)).
Proof.
  rewrite parseResponseAndReferences_eq.
  destruct (strings.Index content referencesMarker) as [i|]; cbn [fst snd].
  - split.
    + exact (Occurs_trans (Occurs_TrimSpace _) (Occurs_firstn i content)).
    + apply Forall_forall. intros r Hr.
      apply referenceLines_In in Hr as (_ & l & Hl & ->).
      apply (Occurs_trans (Occurs_TrimSpace l)).
      apply (Occurs_trans (lines_In_Occurs _ _ Hl)).
      apply (Occurs_trans (untilMarker_Occurs _)).
      apply Occurs_skipn.
  - split; [apply Occurs_refl | constructor].
Qed.

(** X2: every reference returned is one line: it has no line feed, and it
    does not contain the marker. *)
Theorem parse_references_single_line content :
  Forall (fun r => ~ In x0a r /\ ~ Occurs referencesMarker r)
         (snd (parseResponseAndReferences content)).
Proof.
  eapply Forall_impl; [|apply parse_references_lines].
  intros r (_ & _ & Hlf & Hm). split; assumption.
Qed.

(** X3: parsing the returned answer again gives it back, with no
    references. *)
Theorem parse_answer_again content :
  parseResponseAndReferences (fst (parseResponseAndReferences content))
  = (fst (parseResponseAndReferences content), []).
Proof.
  pose proof (parse_answer_no_marker content) as H.
  apply Index_None_iff in H.
  rewrite (parseResponseAndReferences_eq
             (fst (parseResponseAndReferences content))), H.
  reflexivity.
Qed.

(** X4: a text in the layout the system message asks for is read back: for
    an answer with no space around it and no marker in it, and references
    that are non-empty, trimmed, free of line feeds and of the marker, the
    text "answer, marker, one reference per line" parses to that answer and
    those references. *)
Theorem parse_renderResponse answer references :
  strings.TrimSpace answer = answer ->
  ~ Occurs referencesMarker answer ->
  Forall lineReference references ->
  parseResponseAndReferences (renderResponse answer references)
  = (answer, references).
Proof.
  intros Htrim Hno Hrefs.
  assert (Hbefore : ~ Occurs referencesMarker (answer ++ LF)).
  { intros Hocc.
    apply Occurs_across_byte in Hocc; [|exact referencesMarker_no_LF].
    destruct Hocc as [H|H].
    - exact (Hno H).
    - destruct H as (a & b & Hab). destruct a; discriminate Hab. }
  assert (Hafter : ~ Occurs referencesMarker (LF ++ joinLines references)).
  { intros Hocc.
    change (LF ++ joinLines references)
      with ([] ++ x0a :: joinLines references) in Hocc.
    apply Occurs_across_byte in Hocc; [|exact referencesMarker_no_LF].
    destruct Hocc as [H|H].
    - destruct H as (a & b & Hab). destruct a; discriminate Hab.
    - revert H. apply joinLines_no_marker.
      eapply Forall_impl; [|exact Hrefs]. intros r (_ & _ & _ & H). exact H. }
  pose proof (FirstOccurrence_marker (LF ++ joinLines references) Hbefore)
    as Hfirst.
  apply FirstOccurrence_Index in Hfirst as (Hi & Hb & Ha).
  unfold renderResponse. rewrite app_assoc.
  rewrite parseResponseAndReferences_eq, Hi, Hb, Ha.
  rewrite (untilMarker_no_marker Hafter). unfold LF. f_equal.
  - rewrite (TrimSpace_app_rune answer (spaceRune1 x0a eq_refl)).
    exact Htrim.
  - rewrite (referenceLines_rune_app (joinLines references)
               (spaceRune1 x0a eq_refl)).
    rewrite referenceLines_lines.
    destruct references as [|r rs]; [reflexivity|].
    rewrite lines_joinLines.
    + apply trimmedNonBlank_fixed.
      eapply Forall_impl; [|exact Hrefs]. intros l (H1 & H2 & _).
      split; assumption.
    + discriminate.
    + eapply Forall_impl; [|exact Hrefs]. intros l (_ & _ & H & _). exact H.
Qed.

Lemma parse_renderResponse_witness :
  parseResponseAndReferences
    (renderResponse (str "Rust is safe.") [str "1. The Book"; str "2. RFC 1"])
  = (str "Rust is safe.", [str "1. The Book"; str "2. RFC 1"]).
Proof.
  apply parse_renderResponse.
  - vm_compute. reflexivity.
  - apply Index_None. vm_compute. reflexivity.
  - repeat constructor; try discriminate;
      try (vm_compute; reflexivity);
      try (apply Index_None; vm_compute; reflexivity);
      intros H; simpl in H;
      repeat (destruct H as [H|H]; [discriminate H|]); exact H.
Defined.

(** * Further properties of [formatPromptWithReferenceRequest] and
      [chatHandler] *)

(** X5: the prompt determines the message: two messages with the same
    prompt are the same message, and cutting the template off the end of
    the prompt gives the message back. *)
Theorem formatPrompt_message_recovered m1 m2 :
  (formatPromptWithReferenceRequest m1 = formatPromptWithReferenceRequest m2
   <-> m1 = m2) /\
  firstn (length (formatPromptWithReferenceRequest m1)
          - length referenceRequestTemplate)
         (formatPromptWithReferenceRequest m1) = m1.
Proof.
  unfold formatPromptWithReferenceRequest. split; [split|].
  - apply app_inv_tail.
  - intros ->. reflexivity.
  - rewrite length_app, Nat.add_sub, firstn_app, Nat.sub_diag, firstn_all.
    simpl. apply app_nil_r.
Qed.

(** X6: the handler makes at most one outbound call per request, and a call
    it makes is a POST to the configured endpoint with the JSON content
    type and the configured API key, whose body is the marshalled request
    data of the decoded request. *)
Theorem chatHandler_calls_shape lib w body :
  length (snd (chatHandler lib w body)) <= 1 /\
  forall req, In req (snd (chatHandler lib w body)) ->
    Method req = str "POST" /\
    RequestURL req = Getenv w (str "AZURE_ENDPOINT") /\
    Header req = [ (str "Content-Type", str "application/json");
                   (str "api-key", Getenv w (str "AZURE_API_KEY")) ] /\
    exists chatRequest,
      DecodeChatRequest lib body = Some chatRequest /\
      Marshal lib (requestData w chatRequest) = Some (Body req).
Proof.
  rewrite chatHandler_eq.
  destruct (DecodeChatRequest lib body) as [chatRequest|];
    [|split; [simpl; lia | intros req []]].
  destruct (Marshal lib (requestData w chatRequest)) as [jsonData|] eqn:Em;
    [|split; [simpl; lia | intros req []]].
  destruct (urlParses lib (Getenv w (str "AZURE_ENDPOINT")));
    [|split; [simpl; lia | intros req []]].
  cbn [snd]. split; [simpl; lia|].
  intros req [<-|[]]. repeat split.
  exists chatRequest. split; [reflexivity | exact Em].
Qed.

(** X7: the status of the reply is 200, 400 or 500; it is 400 exactly when
    the request body does not decode; and a reply with status 200 comes
    after exactly one outbound call. *)
Theorem chatHandler_status lib w body :
  (status (fst (chatHandler lib w body)) = 200%Z \/
   status (fst (chatHandler lib w body)) = 400%Z \/
   status (fst (chatHandler lib w body)) = 500%Z) /\
  (status (fst (chatHandler lib w body)) = 400%Z
   <-> DecodeChatRequest lib body = None) /\
  (status (fst (chatHandler lib w body)) = 200%Z ->
   length (snd (chatHandler lib w body)) = 1).
Proof.
  rewrite chatHandler_eq.
  destruct (DecodeChatRequest lib body) as [chatRequest|].
  2: { cbn. repeat split; auto; discriminate. }
  destruct (Marshal lib (requestData w chatRequest)) as [jsonData|].
  2: { cbn. repeat split; auto; discriminate. }
  destruct (urlParses lib (Getenv w (str "AZURE_ENDPOINT"))).
  2: { cbn. repeat split; auto; discriminate. }
  cbn [fst snd length].
  destruct (Do w (upstreamRequest w jsonData)) as [| |upstreamBody].
  1, 2: cbn; repeat split; auto; discriminate.
  destruct (UnmarshalAzureResponse lib upstreamBody) as [azureResponse|].
  2: { cbn. repeat split; auto; discriminate. }
  destruct (Choices azureResponse); cbn; repeat split; auto; discriminate.
Qed.

(** X8: an error reply carries one of the seven messages of the handler
    with its status. *)
Theorem chatHandler_error_replies lib w body :
  match fst (chatHandler lib w body) with
  | Error msg code => In (msg, code) errorReplies
  | JSON _ => True
  end.
Proof.
  rewrite chatHandler_eq.
  destruct (DecodeChatRequest lib body) as [chatRequest|];
    [|cbn [fst]; left; reflexivity].
  destruct (Marshal lib (requestData w chatRequest)) as [jsonData|];
    [|cbn [fst]; right; left; reflexivity].
  destruct (urlParses lib (Getenv w (str "AZURE_ENDPOINT")));
    [|cbn [fst]; do 2 right; left; reflexivity].
  cbn [fst].
  destruct (Do w (upstreamRequest w jsonData)) as [| |upstreamBody];
    [do 3 right; left; reflexivity | do 4 right; left; reflexivity |].
  destruct (UnmarshalAzureResponse lib upstreamBody) as [azureResponse|];
    [|do 5 right; left; reflexivity].
  destruct (Choices azureResponse); [do 6 right; left; reflexivity | exact I].
Qed.

(** X9: when the upstream body decodes to a response with choices, the
    reply is the JSON response made of the first choice's content, split
    into answer and references; the other choices are not read, and one
    outbound call was made. *)
Theorem chatHandler_first_choice
  lib w body chatRequest jsonData upstreamBody azureResponse choice rest :
  DecodeChatRequest lib body = Some chatRequest ->
  Marshal lib (requestData w chatRequest) = Some jsonData ->
  urlParses lib (Getenv w (str "AZURE_ENDPOINT")) = true ->
  Do w (upstreamRequest w jsonData) = Replied upstreamBody ->
  UnmarshalAzureResponse lib upstreamBody = Some azureResponse ->
  Choices azureResponse = choice :: rest ->
  chatHandler lib w body
  = (JSON (mkChatResponse
             (fst (parseResponseAndReferences (MessageContent choice)))
             (snd (parseResponseAndReferences (MessageContent choice)))),
     [upstreamRequest w jsonData]).
Proof.
  intros Hd Hm Hu Hdo Hr Hc.
  rewrite chatHandler_eq, Hd, Hm, Hu, Hdo, Hr, Hc. reflexivity.
Qed.

Lemma chatHandler_first_choice_witness :
  fst (chatHandler echoLibrary
         (replyWorld (str "https://example.test/chat")
            (Replied (str "Answer References: r1")))
         body_hi)
  = JSON (mkChatResponse (str "Answer") [str "r1"]).
Proof.
  exact (f_equal fst
           (@chatHandler_first_choice echoLibrary
              (replyWorld (str "https://example.test/chat")
                 (Replied (str "Answer References: r1")))
              body_hi (mkChatRequest (str "hi"))
              (str "hi" ++ referenceRequestTemplate)
              (str "Answer References: r1")
              (mkAzureResponse [] [] 0 []
                 [ mkChatChoice (str "Answer References: r1") 0 (str "stop");
                   mkChatChoice (str "second choice") 1 (str "stop") ])
              _ _ eq_refl eq_refl eq_refl eq_refl eq_refl eq_refl)).
Defined.

(** X10: a failure of the upstream call ends the request with status 500
    after the one call, without another try: "Failed to send request to
    Azure OpenAI" when the call fails, "Failed to read response from Azure
    OpenAI" when its body cannot be read, "Failed to unmarshal response
    data" when the body does not decode. *)
Theorem chatHandler_upstream_failure lib w body chatRequest jsonData :
  DecodeChatRequest lib body = Some chatRequest ->
  Marshal lib (requestData w chatRequest) = Some jsonData ->
  urlParses lib (Getenv w (str "AZURE_ENDPOINT")) = true ->
  (Do w (upstreamRequest w jsonData) = DoFailed ->
   chatHandler lib w body
   = (Error (str "Failed to send request to Azure OpenAI") 500,
      [upstreamRequest w jsonData])) /\
  (Do w (upstreamRequest w jsonData) = ReadFailed ->
   chatHandler lib w body
   = (Error (str "Failed to read response from Azure OpenAI") 500,
      [upstreamRequest w jsonData])) /\
  (forall upstreamBody,
     Do w (upstreamRequest w jsonData) = Replied upstreamBody ->
     UnmarshalAzureResponse lib upstreamBody = None ->
     chatHandler lib w body
     = (Error (str "Failed to unmarshal response data") 500,
        [upstreamRequest w jsonData])).
Proof.
  intros Hd Hm Hu. rewrite chatHandler_eq, Hd, Hm, Hu.
  split; [|split].
  - intros ->. reflexivity.
  - intros ->. reflexivity.
  - intros upstreamBody -> ->. reflexivity.
Qed.

Lemma chatHandler_upstream_failure_witness :
  fst (chatHandler testLibrary
         (replyWorld (str "https://example.test/chat") DoFailed) body_hi)
  = Error (str "Failed to send request to Azure OpenAI") 500 /\
  fst (chatHandler testLibrary
         (replyWorld (str "https://example.test/chat")
            (Replied (str "<html>"))) body_hi)
  = Error (str "Failed to unmarshal response data") 500.
Proof.
  split.
  - exact (f_equal fst
             (proj1 (@chatHandler_upstream_failure testLibrary
                       (replyWorld (str "https://example.test/chat") DoFailed)
                       body_hi (mkChatRequest (str "hi"))
                       (str "hi" ++ referenceRequestTemplate)
                       eq_refl eq_refl eq_refl) eq_refl)).
  - exact (f_equal fst
             (proj2 (proj2 (@chatHandler_upstream_failure testLibrary
                       (replyWorld (str "https://example.test/chat")
                          (Replied (str "<html>")))
                       body_hi (mkChatRequest (str "hi"))
                       (str "hi" ++ referenceRequestTemplate)
                       eq_refl eq_refl eq_refl)) (str "<html>")
                eq_refl eq_refl)).
Defined.

(** X11: in every JSON reply the answer contains no marker, and every
    reference is non-empty, has no space around it, no line feed and no
    marker in it. *)
Theorem chatHandler_reply_invariant lib w body :
  match fst (chatHandler lib w body) with
  | JSON chatResponse =>
      ~ Occurs referencesMarker (Response chatResponse) /\
      Forall lineReference (References chatResponse)
  | Error _ _ => True
  end.
Proof.
  rewrite chatHandler_eq.
  destruct (DecodeChatRequest lib body) as [chatRequest|]; [|exact I].
  destruct (Marshal lib (requestData w chatRequest)) as [jsonData|];
    [|exact I].
  destruct (urlParses lib (Getenv w (str "AZURE_ENDPOINT"))); [|exact I].
  cbn [fst].
  destruct (Do w (upstreamRequest w jsonData)) as [| |upstreamBody];
    try exact I.
  destruct (UnmarshalAzureResponse lib upstreamBody) as [azureResponse|];
    [|exact I].
  destruct (Choices azureResponse) as [|choice rest]; [exact I|].
  cbn [Response References]. split.
  - apply parse_answer_no_marker.
  - apply parse_references_lines.
Qed.
